(** * The fuser expression IR ([torch/csrc/jit/fuser/common/ir.h])

    A shallow embedding of the node factories of [ir.h] and the properties
    its specification states about them.

    The C++ code allocates every node with [new] and hands out [Expr]
    handles that point to it.  Several properties speak about handle
    identity ("the very same handle", "distinct node identities"), so the
    embedding keeps an explicit store of nodes: a handle is an address into
    the store, a factory is a computation over the store, and an accessor
    reads the store.

    Modelling decisions:
    - Only live handles are modelled.  A node is released when its last
      handle drops; a handle that exists therefore always points to a node
      that is still allocated, and the store never shrinks.
    - Addresses are abstract.  The store numbers nodes in the order in
      which their constructors complete; C++ fixes no relation between
      addresses beyond "two live nodes have different addresses".
    - [int] is a 32-bit two's complement integer and [size_t] is 64 bits
      wide; conversions between them are written out.
    - Memory exhaustion is not modelled. *)

From Stdlib Require Import ZArith String List Lia.
From Stdlib Require Import SpecFloat.
From stdpp Require Import base decidable numbers list strings.

Local Open Scope Z_scope.

(** ** Scalar type descriptors ([expr.h]) *)

Module Types.

(** Modelled from the spec: [expr.h], which declares [Dtype], the constants
    [kInt32], [kFloat32] and [kNull], [ToDtype] and [BinaryOpDtype], is not
    among the sources.  The descriptor is "kind: enum{None, Int32, Float32},
    lanes: positive integer >= 1". *)
Inductive ScalarKind : Type :=
  | KNone
  | KInt32
  | KFloat32.

#[global] Instance ScalarKind_eq_dec : EqDecision ScalarKind.
Proof. solve_decision. Defined.

(** Modelled from the spec: the missing class [Dtype]; two descriptors are
    equal iff kind and lanes match. *)
Record Dtype : Type := mkDtype {
  scalar_type : ScalarKind;
  lanes : positive
}.

#[global] Instance Dtype_eq_dec : EqDecision Dtype.
Proof. solve_decision. Defined.

(** Modelled from the spec: the missing constants.  Immediates have
    "fixed type = Int32, lanes=1" and "Float32, lanes=1"; structural nodes
    have type None. *)
Definition kInt32 : Dtype := mkDtype KInt32 1.
Definition kFloat32 : Dtype := mkDtype KFloat32 1.
Definition kNull : Dtype := mkDtype KNone 1.

(** Modelled from the spec: the missing constructor [Dtype(Dtype, int)],
    used by [cast<T>] to build "a Descriptor preserving the source's lane
    count": the kind of the first argument with the given lanes. *)
Definition Dtype_lanes (type : Dtype) (n : positive) : Dtype :=
  mkDtype (scalar_type type) n.

(** The caller-level scalar types [T] at which [ToDtype<T>] and [cast<T>]
    are instantiated. *)
Inductive CType : Type :=
  | c_int
  | c_float.

(** Modelled from the spec: the missing [ToDtype<T>()], which "maps a
    caller-level scalar type T to a Descriptor". *)
Definition ToDtype (T : CType) : Dtype :=
  match T with
  | c_int => kInt32
  | c_float => kFloat32
  end.

(** The failure conditions of the specification's error taxonomy. *)
Inductive failure : Type :=
  | LaneMismatch
  | UnsupportedKinds
  | OutOfRange.

(** The result of running a piece of the program: a value, a failure
    reported to the caller, or undefined behaviour (an unchecked access). *)
Inductive outcome (A : Type) : Type :=
  | Ret (a : A)
  | Fail (f : failure)
  | Undefined.

Arguments Ret {A} a.
Arguments Fail {A} f.
Arguments Undefined {A}.

(** Modelled from the spec: the rank table of the promotion rule.  Only
    Int32 and Float32 are ranked ("Int32 < Float32"); None has no rank. *)
Definition kind_rank (k : ScalarKind) : option nat :=
  match k with
  | KNone => None
  | KInt32 => Some 0%nat
  | KFloat32 => Some 1%nat
  end.

(** Modelled from the spec: the missing [BinaryOpDtype], the spec's
    [promote].  "promote(x, x) = x"; "mismatched lane counts are a
    construction-time error (fails with a lane mismatch condition)"; "the
    wider kind wins"; "promoting two kinds absent from the rank table must
    be treated as a hard construction-time failure". *)
Definition BinaryOpDtype (op1_dtype op2_dtype : Dtype) : outcome Dtype :=
  if decide (op1_dtype = op2_dtype) then Ret op1_dtype
  else if negb (bool_decide (lanes op1_dtype = lanes op2_dtype))
  then Fail LaneMismatch
  else match kind_rank (scalar_type op1_dtype),
             kind_rank (scalar_type op2_dtype) with
       | Some r1, Some r2 =>
           Ret (if (r1 <? r2)%nat then op2_dtype else op1_dtype)
       | _, _ => Fail UnsupportedKinds
       end.

End Types.

Export Types.

(** ** Machine integers *)

Module Int.

Definition INT_MIN : Z := - 2 ^ 31.
Definition INT_MAX : Z := 2 ^ 31 - 1.

(** The values of type [int]. *)
Definition is_int (z : Z) : Prop := INT_MIN <= z <= INT_MAX.

(** Conversion to [int]: reduction modulo 2^32 into the signed range. *)
Definition to_int (z : Z) : Z := (z + 2 ^ 31) mod 2 ^ 32 - 2 ^ 31.

(** Conversion to [size_t]: reduction modulo 2^64. *)
Definition to_size_t (z : Z) : Z := z mod 2 ^ 64.

End Int.

(** ** The store of nodes *)

(** An [Expr] handle holds the address of its node; two handles are the
    same handle exactly when they point to the same node. *)
Record Expr : Type := mkExpr { node_ptr : nat }.

#[global] Instance Expr_eq_dec : EqDecision Expr.
Proof. solve_decision. Defined.

Inductive IRNodeType : Type :=
  | kAdd
  | kSub
  | kMul
  | kDiv.

#[global] Instance IRNodeType_eq_dec : EqDecision IRNodeType.
Proof. solve_decision. Defined.

(** The fields of each node class.  The four classes [Add], [Sub], [Mul]
    and [Div] differ only in the tag their constructor passes to
    [BinaryOpNode], so one case tagged with [expr_type_] stands for them. *)
Inductive NodeData : Type :=
  | NCast (src_value_ : Expr)
  | NBinaryOp (lhs_ rhs_ : Expr) (expr_type_ : IRNodeType)
  | NIntImm (value_ : Z)
  | NFloatImm (value_ : spec_float)
  | NVariable (name_hint_ : string)
  | NBlock (exprs_ : list Expr)
  | NFor (var_ start_ stop_ body_ : Expr)
  | NEmptyExpr.

(** A node: the descriptor stored by the base class [ExprNodeBase(dtype)]
    and the fields of the derived class. *)
Record ExprNode : Type := mkNode {
  dtype_ : Dtype;
  data : NodeData
}.

Abbreviation Heap := (list ExprNode).

(** The node a handle points to, if the handle is live. *)
Definition deref (heap : Heap) (e : Expr) : option ExprNode :=
  heap !! node_ptr e.

(** ** Computations over the store *)

Definition M (A : Type) : Type := Heap -> outcome (A * Heap).

Definition ret {A} (a : A) : M A := fun heap => Ret (a, heap).

Definition bind {A B} (m : M A) (k : A -> M B) : M B :=
  fun heap =>
    match m heap with
    | Ret (a, heap') => k a heap'
    | Fail f => Fail f
    | Undefined => Undefined
    end.

Notation "'do' x <- m ; k" := (bind m (fun x => k))
  (at level 10, x name, m at level 100, k at level 200).

(** A pure result, lifted. *)
Definition lift {A} (o : outcome A) : M A :=
  fun heap =>
    match o with
    | Ret a => Ret (a, heap)
    | Fail f => Fail f
    | Undefined => Undefined
    end.

(** [Expr(new Node(...))]: the node is placed at a fresh address and a
    handle to it is returned. *)
Definition new (n : ExprNode) : M Expr :=
  fun heap => Ret (mkExpr (length heap), heap ++ [n]).

(** Reading through a handle.  Dereferencing a handle that points to no
    node is undefined. *)
Definition read {A} (f : ExprNode -> outcome A) (heap : Heap) (e : Expr)
  : outcome A :=
  match deref heap e with
  | Some n => f n
  | None => Undefined
  end.

(** [e.dtype()] *)
Definition dtype (heap : Heap) (e : Expr) : outcome Dtype :=
  read (fun n => Ret (dtype_ n)) heap e.

(** [e.dtype()] inside a factory. *)
Definition get_dtype (e : Expr) : M Dtype :=
  fun heap => lift (dtype heap e) heap.

(** ** The node factories and accessors of [ir.h] *)

(** *** Cast *)

(** [Cast::make(dtype, src_value)] *)
Definition Cast_make (dtype : Dtype) (src_value : Expr) : M Expr :=
  new (mkNode dtype (NCast src_value)).

(** [Cast::src_value()] *)
Definition src_value (heap : Heap) (e : Expr) : outcome Expr :=
  read (fun n => match data n with
                 | NCast s => Ret s
                 | _ => Undefined
                 end) heap e.

(** [cast<T>(src_value)] *)
Definition cast (T : CType) (src_value : Expr) : M Expr :=
  do d <- get_dtype src_value;
  Cast_make (Dtype_lanes (ToDtype T) (lanes d)) src_value.

(** *** Binary operators *)

(** [BinaryOpNode::CastIfNeeded(expr, dst_dtype)] *)
Definition CastIfNeeded (expr : Expr) (dst_dtype : Dtype) : M Expr :=
  do d <- get_dtype expr;
  if decide (d = dst_dtype) then ret expr
  else Cast_make dst_dtype expr.

(** [BinaryOpNode<Op>::make(lhs, rhs)] with the constructor of [Op] that
    passes the tag [expr_type]: the base is initialised with the promoted
    descriptor, then [lhs_], then [rhs_]. *)
Definition BinaryOpNode_make (expr_type : IRNodeType) (lhs_v rhs_v : Expr)
  : M Expr :=
  do dl <- get_dtype lhs_v;
  do dr <- get_dtype rhs_v;
  do dtype <- lift (BinaryOpDtype dl dr);
  do l <- CastIfNeeded lhs_v dtype;
  do r <- CastIfNeeded rhs_v dtype;
  new (mkNode dtype (NBinaryOp l r expr_type)).

Definition Add_make : Expr -> Expr -> M Expr := BinaryOpNode_make kAdd.
Definition Sub_make : Expr -> Expr -> M Expr := BinaryOpNode_make kSub.
Definition Mul_make : Expr -> Expr -> M Expr := BinaryOpNode_make kMul.
Definition Div_make : Expr -> Expr -> M Expr := BinaryOpNode_make kDiv.

(** [BinaryOpNode::lhs()] *)
Definition lhs (heap : Heap) (e : Expr) : outcome Expr :=
  read (fun n => match data n with
                 | NBinaryOp l _ _ => Ret l
                 | _ => Undefined
                 end) heap e.

(** [BinaryOpNode::rhs()] *)
Definition rhs (heap : Heap) (e : Expr) : outcome Expr :=
  read (fun n => match data n with
                 | NBinaryOp _ r _ => Ret r
                 | _ => Undefined
                 end) heap e.

(** [BinaryOpNode::expr_type()] *)
Definition expr_type (heap : Heap) (e : Expr) : outcome IRNodeType :=
  read (fun n => match data n with
                 | NBinaryOp _ _ t => Ret t
                 | _ => Undefined
                 end) heap e.

(** *** Immediates *)

(** [IntImm::make(value)] *)
Definition IntImm_make (value : Z) : M Expr :=
  new (mkNode kInt32 (NIntImm value)).

(** [FloatImm::make(value)] *)
Definition FloatImm_make (value : spec_float) : M Expr :=
  new (mkNode kFloat32 (NFloatImm value)).

(** [IntImm::value()] *)
Definition IntImm_value (heap : Heap) (e : Expr) : outcome Z :=
  read (fun n => match data n with
                 | NIntImm v => Ret v
                 | _ => Undefined
                 end) heap e.

(** [FloatImm::value()] *)
Definition FloatImm_value (heap : Heap) (e : Expr) : outcome spec_float :=
  read (fun n => match data n with
                 | NFloatImm v => Ret v
                 | _ => Undefined
                 end) heap e.

(** *** Variable *)

(** [Variable::make(name_hint, dtype)] *)
Definition Variable_make (name_hint : string) (dtype : Dtype) : M Expr :=
  new (mkNode dtype (NVariable name_hint)).

(** [Variable::make(dtype)] *)
Definition Variable_make_anon (dtype : Dtype) : M Expr :=
  new (mkNode dtype (NVariable EmptyString)).

(** [Variable::name_hint()] *)
Definition name_hint (heap : Heap) (e : Expr) : outcome string :=
  read (fun n => match data n with
                 | NVariable s => Ret s
                 | _ => Undefined
                 end) heap e.

(** *** Block *)

(** [std::vector::operator[]] at an [int] index: the index is converted to
    [size_t]; the access is unchecked, and undefined past the end. *)
Definition vector_index {A} (v : list A) (index : Z) : outcome A :=
  match v !! Z.to_nat (Int.to_size_t index) with
  | Some x => Ret x
  | None => Undefined
  end.

(** [Block::make(exprs)] *)
Definition Block_make (exprs : list Expr) : M Expr :=
  new (mkNode kNull (NBlock exprs)).

(** [Block::nexprs()]: [exprs_.size()] converted to [int]. *)
Definition nexprs (heap : Heap) (e : Expr) : outcome Z :=
  read (fun n => match data n with
                 | NBlock es => Ret (Int.to_int (Z.of_nat (length es)))
                 | _ => Undefined
                 end) heap e.

(** [Block::expr(index)] *)
Definition expr (heap : Heap) (e : Expr) (index : Z) : outcome Expr :=
  read (fun n => match data n with
                 | NBlock es => vector_index es index
                 | _ => Undefined
                 end) heap e.

(** *** For *)

(** [For::make(var, start, stop, body)] *)
Definition For_make (var start stop body : Expr) : M Expr :=
  new (mkNode kNull (NFor var start stop body)).

(** [For::var()] *)
Definition var (heap : Heap) (e : Expr) : outcome Expr :=
  read (fun n => match data n with
                 | NFor v _ _ _ => Ret v
                 | _ => Undefined
                 end) heap e.

(** [For::start()] *)
Definition start (heap : Heap) (e : Expr) : outcome Expr :=
  read (fun n => match data n with
                 | NFor _ s _ _ => Ret s
                 | _ => Undefined
                 end) heap e.

(** [For::stop()] *)
Definition stop (heap : Heap) (e : Expr) : outcome Expr :=
  read (fun n => match data n with
                 | NFor _ _ s _ => Ret s
                 | _ => Undefined
                 end) heap e.

(** [For::body()] *)
Definition body (heap : Heap) (e : Expr) : outcome Expr :=
  read (fun n => match data n with
                 | NFor _ _ _ b => Ret b
                 | _ => Undefined
                 end) heap e.

(** *** EmptyExpr *)

(** [EmptyExpr::make()] *)
Definition EmptyExpr_make : M Expr :=
  new (mkNode kNull NEmptyExpr).

(** ** Node classes *)

(** The dynamic class of the node behind a handle. *)
Definition is_Cast (heap : Heap) (e : Expr) : bool :=
  match deref heap e with
  | Some (mkNode _ (NCast _)) => true
  | _ => false
  end.

Definition is_Variable (heap : Heap) (e : Expr) : bool :=
  match deref heap e with
  | Some (mkNode _ (NVariable _)) => true
  | _ => false
  end.

(** The float immediate 2.0 in binary32: 2^23 * 2^-22. *)
Definition float_2 : spec_float := S754_finite false 8388608 (-22).

(** A sample run: 3 + 2.0f. *)
Definition add_int_float : M (Expr * Expr * Expr) :=
  do i <- IntImm_make 3;
  do f <- FloatImm_make float_2;
  do r <- Add_make i f;
  ret (i, f, r).

(** The same with two integer immediates: 3 + 4. *)
Definition add_int_int : M (Expr * Expr * Expr) :=
  do i <- IntImm_make 3;
  do j <- IntImm_make 4;
  do r <- Add_make i j;
  ret (i, j, r).

(** The factory of each of the four operator classes. *)
Definition make_of (op : IRNodeType) : Expr -> Expr -> M Expr :=
  match op with
  | kAdd => Add_make
  | kSub => Sub_make
  | kMul => Mul_make
  | kDiv => Div_make
  end.

(** The nodes allocated between two states of the store. *)
Definition allocated (heap heap' : Heap) : list ExprNode :=
  drop (length heap) heap'.

(** ** The construction interface as a whole *)

(** One call of a factory of [ir.h]. *)
Inductive Call : Type :=
  | call_Cast_make (dtype : Dtype) (src_value : Expr)
  | call_cast (T : CType) (src_value : Expr)
  | call_BinaryOp_make (op : IRNodeType) (lhs_v rhs_v : Expr)
  | call_IntImm_make (value : Z)
  | call_FloatImm_make (value : spec_float)
  | call_Variable_make (name_hint : string) (dtype : Dtype)
  | call_Variable_make_anon (dtype : Dtype)
  | call_Block_make (exprs : list Expr)
  | call_For_make (var_v start_v stop_v body_v : Expr)
  | call_EmptyExpr_make.

Definition run (c : Call) : M Expr :=
  match c with
  | call_Cast_make d e => Cast_make d e
  | call_cast T e => cast T e
  | call_BinaryOp_make op l r => make_of op l r
  | call_IntImm_make v => IntImm_make v
  | call_FloatImm_make v => FloatImm_make v
  | call_Variable_make s d => Variable_make s d
  | call_Variable_make_anon d => Variable_make_anon d
  | call_Block_make es => Block_make es
  | call_For_make v s t b => For_make v s t b
  | call_EmptyExpr_make => EmptyExpr_make
  end.

(** The handles a call is given. *)
Definition handles_of (c : Call) : list Expr :=
  match c with
  | call_Cast_make _ e | call_cast _ e => [e]
  | call_BinaryOp_make _ l r => [l; r]
  | call_Block_make es => es
  | call_For_make v s t b => [v; s; t; b]
  | _ => []
  end.

Definition is_binary (c : Call) : bool :=
  match c with
  | call_BinaryOp_make _ _ _ => true
  | _ => false
  end.

(** The handles a node holds. *)
Definition children (n : NodeData) : list Expr :=
  match n with
  | NCast s => [s]
  | NBinaryOp l r _ => [l; r]
  | NBlock es => es
  | NFor v s t b => [v; s; t; b]
  | _ => []
  end.

(** A handle that points to a node. *)
Definition live (heap : Heap) (e : Expr) : Prop := is_Some (deref heap e).

(** The stores a program can build: it starts with no node and calls the
    factories, passing handles it holds. *)
Inductive built : Heap -> Prop :=
  | built_empty : built []
  | built_run (c : Call) (heap : Heap) (res : Expr) (heap' : Heap) :
      built heap ->
      Forall (live heap) (handles_of c) ->
      run c heap = Ret (res, heap') ->
      built heap'.

(** [reaches heap e e']: following held handles from the node of [e] leads
    to [e'], in one step or more. *)
Inductive reaches (heap : Heap) : Expr -> Expr -> Prop :=
  | reaches_child (e : Expr) (n : ExprNode) (ch : Expr) :
      deref heap e = Some n -> ch ∈ children (data n) -> reaches heap e ch
  | reaches_step (e : Expr) (n : ExprNode) (ch e' : Expr) :
      deref heap e = Some n -> ch ∈ children (data n) ->
      reaches heap ch e' -> reaches heap e e'.

(** The descriptor the constructor of a class fixes, if it fixes one. *)
Definition fixed_dtype (n : NodeData) : option Dtype :=
  match n with
  | NIntImm _ => Some kInt32
  | NFloatImm _ => Some kFloat32
  | NBlock _ | NFor _ _ _ _ | NEmptyExpr => Some kNull
  | NCast _ | NBinaryOp _ _ _ | NVariable _ => None
  end.

(** ** The store only grows *)

Section Store.

Implicit Types (heap ext : Heap) (e : Expr) (n : ExprNode).

Lemma deref_new heap n : deref (heap ++ [n]) (mkExpr (length heap)) = Some n.
Proof. unfold deref; simpl. by rewrite list_lookup_middle. Qed.

Lemma deref_fresh heap : deref heap (mkExpr (length heap)) = None.
Proof. unfold deref; simpl. by apply lookup_ge_None_2. Qed.

Lemma deref_app heap ext e n :
  deref heap e = Some n -> deref (heap ++ ext) e = Some n.
Proof. unfold deref. intros H. by apply lookup_app_l_Some. Qed.

Lemma read_app {A} (f : ExprNode -> outcome A) heap ext e a :
  read f heap e = Ret a -> read f (heap ++ ext) e = Ret a.
Proof.
  unfold read. destruct (deref heap e) as [n|] eqn:E; [|done].
  by rewrite (deref_app _ ext _ _ E).
Qed.

Lemma read_new {A} (f : ExprNode -> outcome A) heap n :
  read f (heap ++ [n]) (mkExpr (length heap)) = f n.
Proof. unfold read. by rewrite deref_new. Qed.

Lemma dtype_live heap e d : dtype heap e = Ret d -> is_Some (deref heap e).
Proof. unfold dtype, read. destruct (deref heap e); [eauto | done]. Qed.

Lemma live_fresh_ne heap e : is_Some (deref heap e) -> mkExpr (length heap) <> e.
Proof.
  intros [n Hn] <-. by rewrite deref_fresh in Hn.
Qed.

Lemma allocated_app heap ext : allocated heap (heap ++ ext) = ext.
Proof. unfold allocated. by rewrite drop_app_length. Qed.

End Store.

(** ** Cast *)

(** C5. [Cast::make(d, e)] succeeds for every descriptor [d] and every
    handle [e]; it returns a handle to a new Cast node whose [dtype()] is
    exactly [d] and whose [src_value()] is [e].  Nothing is elided when
    [e.dtype()] already equals [d]: the result is a new node, not [e]. *)
Theorem Cast_make_wraps (d : Dtype) (e : Expr) (heap : Heap) :
  exists c heap',
    Cast_make d e heap = Ret (c, heap') /\
    deref heap c = None /\
    is_Cast heap' c = true /\
    dtype heap' c = Ret d /\
    src_value heap' c = Ret e /\
    (dtype heap e = Ret d -> c <> e /\ dtype heap' e = Ret d).
Proof.
  exists (mkExpr (length heap)), (heap ++ [mkNode d (NCast e)]).
  split; [reflexivity|].
  split; [apply deref_fresh|].
  unfold is_Cast, dtype, src_value. rewrite !read_new, deref_new; simpl.
  repeat split; try done.
  - apply live_fresh_ne. by eapply dtype_live.
  - by apply read_app.
Qed.

(** An identity cast of a float immediate to Float32. *)
Lemma Cast_make_wraps_witness :
  exists f heap c heap',
    FloatImm_make float_2 [] = Ret (f, heap) /\
    Cast_make kFloat32 f heap = Ret (c, heap') /\
    dtype heap f = Ret kFloat32 /\
    c <> f /\ dtype heap' c = Ret kFloat32 /\ src_value heap' c = Ret f.
Proof.
  eexists _, _.
  destruct (Cast_make_wraps kFloat32 (mkExpr 0)
              [mkNode kFloat32 (NFloatImm float_2)])
    as (c & heap' & Hmake & _ & _ & Hd & Hs & Hne).
  exists c, heap'.
  split; [reflexivity|].
  split; [exact Hmake|].
  split; [reflexivity|].
  destruct (Hne eq_refl) as [Hc _].
  split; [exact Hc|]. split; assumption.
Defined.

(** C10. For a live handle [e], [cast<T>(e)] returns a handle to a Cast
    node whose descriptor has the kind of [T] and the lanes of
    [e.dtype()], and whose [src_value()] is [e]. *)
Theorem cast_preserves_lanes (T : CType) (e : Expr) (heap : Heap) (de : Dtype) :
  dtype heap e = Ret de ->
  exists c heap',
    cast T e heap = Ret (c, heap') /\
    is_Cast heap' c = true /\
    dtype heap' c =
      Ret (mkDtype (match T with c_int => KInt32 | c_float => KFloat32 end)
                   (lanes de)) /\
    src_value heap' c = Ret e.
Proof.
  intros Hd.
  exists (mkExpr (length heap)).
  eexists.
  unfold cast, bind, get_dtype. rewrite Hd. simpl.
  split; [reflexivity|].
  unfold is_Cast, dtype, src_value. rewrite !read_new, deref_new; simpl.
  by destruct T.
Qed.

(** [cast<float>] of a four-lane integer variable. *)
Lemma cast_preserves_lanes_witness :
  exists c heap',
    cast c_float (mkExpr 0) [mkNode (mkDtype KInt32 4) (NVariable "v")]
      = Ret (c, heap') /\
    dtype heap' c = Ret (mkDtype KFloat32 4) /\
    src_value heap' c = Ret (mkExpr 0).
Proof.
  destruct (cast_preserves_lanes c_float (mkExpr 0)
              [mkNode (mkDtype KInt32 4) (NVariable "v")] (mkDtype KInt32 4)
              eq_refl)
    as (c & heap' & Hc & _ & Hd & Hs).
  exists c, heap'. repeat split; assumption.
Defined.

(** ** For *)

(** C7. [For::make(var, start, stop, body)] succeeds for every four
    handles, whatever node [var] points to; the node has type None and its
    accessors return exactly the four handles. *)
Theorem For_make_stores (var_v start_v stop_v body_v : Expr) (heap : Heap) :
  exists f heap',
    For_make var_v start_v stop_v body_v heap = Ret (f, heap') /\
    dtype heap' f = Ret kNull /\
    var heap' f = Ret var_v /\
    start heap' f = Ret start_v /\
    stop heap' f = Ret stop_v /\
    body heap' f = Ret body_v.
Proof.
  exists (mkExpr (length heap)). eexists.
  split; [reflexivity|].
  unfold dtype, var, start, stop, body. rewrite !read_new. by simpl.
Qed.

(** A loop whose induction "variable" is an integer immediate is built
    like any other. *)
Example For_make_var_not_Variable :
  let prog :=
    do i <- IntImm_make 7;
    do lo <- IntImm_make 0;
    do hi <- IntImm_make 10;
    do b <- Block_make [];
    do f <- For_make i lo hi b;
    ret (i, f) in
  exists i f heap,
    prog [] = Ret ((i, f), heap) /\
    is_Variable heap i = false /\
    var heap f = Ret i /\
    dtype heap f = Ret kNull.
Proof. simpl. eexists _, _, _. repeat split. Qed.

(** ** Variable *)

(** C9. Two calls of [Variable::make] with the same name hint and the same
    descriptor return different handles, whatever is allocated between the
    two calls ([ext]); both nodes carry the name and the descriptor. *)
Theorem Variable_make_distinct (name : string) (d : Dtype) (heap : Heap) :
  exists v1 heap1,
    Variable_make name d heap = Ret (v1, heap1) /\
    forall ext : Heap, exists v2 heap2,
      Variable_make name d (heap1 ++ ext) = Ret (v2, heap2) /\
      v1 <> v2 /\
      name_hint heap2 v1 = Ret name /\ name_hint heap2 v2 = Ret name /\
      dtype heap2 v1 = Ret d /\ dtype heap2 v2 = Ret d.
Proof.
  exists (mkExpr (length heap)). eexists.
  split; [reflexivity|]. intros ext.
  exists (mkExpr (length ((heap ++ [mkNode d (NVariable name)]) ++ ext))).
  eexists. split; [reflexivity|].
  assert (Hlive : deref ((heap ++ [mkNode d (NVariable name)]) ++ ext)
                    (mkExpr (length heap)) = Some (mkNode d (NVariable name))).
  { apply deref_app, deref_new. }
  split.
  { intros Heq. pose proof (deref_fresh
      ((heap ++ [mkNode d (NVariable name)]) ++ ext)) as Hf.
    rewrite <- Heq in Hf. congruence. }
  unfold name_hint, dtype. rewrite !read_new.
  unfold read. rewrite (deref_app _ _ _ _ Hlive). by simpl.
Qed.

(** The scenario of the specification: twice [Variable::make("x", Int32)]. *)
Example Variable_make_x_twice :
  let prog :=
    do x1 <- Variable_make "x" kInt32;
    do x2 <- Variable_make "x" kInt32;
    ret (x1, x2) in
  exists x1 x2 heap,
    prog [] = Ret ((x1, x2), heap) /\
    x1 <> x2 /\
    name_hint heap x1 = name_hint heap x2 /\
    dtype heap x1 = dtype heap x2.
Proof. simpl. eexists _, _, _. repeat split. discriminate. Qed.

(** ** Block *)

Section Block.

Import Int.

Lemma to_int_id z : is_int z -> to_int z = z.
Proof.
  unfold is_int, INT_MIN, INT_MAX, to_int.
  change (2 ^ 31) with 2147483648. change (2 ^ 32) with 4294967296.
  intros H. rewrite Z.mod_small; lia.
Qed.

Lemma to_size_t_nonneg z : 0 <= z -> is_int z -> to_size_t z = z.
Proof.
  unfold is_int, INT_MAX, to_size_t.
  change (2 ^ 31) with 2147483648. change (2 ^ 64) with 18446744073709551616.
  intros H0 H. rewrite Z.mod_small; lia.
Qed.

Lemma to_size_t_neg z :
  z < 0 -> is_int z -> to_size_t z = z + 18446744073709551616.
Proof.
  unfold is_int, INT_MIN, to_size_t.
  change (2 ^ 31) with 2147483648. change (2 ^ 64) with 18446744073709551616.
  intros H0 H.
  rewrite <- (Z_mod_plus_full z 1 18446744073709551616).
  rewrite Z.mod_small; lia.
Qed.

Lemma vector_index_in_range {A} (v : list A) (i : nat) (x : A) :
  v !! i = Some x -> is_int (Z.of_nat i) ->
  vector_index v (Z.of_nat i) = Ret x.
Proof.
  intros Hx Hi. unfold vector_index.
  rewrite to_size_t_nonneg by (assumption || lia).
  by rewrite Nat2Z.id, Hx.
Qed.

Lemma vector_index_past_end {A} (v : list A) (index : Z) :
  Z.of_nat (length v) <= INT_MAX -> is_int index ->
  ~ (0 <= index < Z.of_nat (length v)) ->
  vector_index v index = Undefined.
Proof.
  unfold INT_MAX. change (2 ^ 31) with 2147483648.
  intros Hlen Hi Hout. unfold vector_index.
  assert (Hge : (length v <= Z.to_nat (to_size_t index))%nat).
  { destruct (Z_lt_le_dec index 0) as [Hneg|Hpos].
    - rewrite to_size_t_neg by assumption.
      unfold is_int, INT_MIN in Hi. change (2 ^ 31) with 2147483648 in Hi. lia.
    - rewrite to_size_t_nonneg by assumption. lia. }
  by rewrite (lookup_ge_None_2 _ _ Hge).
Qed.

Lemma nexprs_new (heap : Heap) (d : Dtype) (es : list Expr) :
  nexprs (heap ++ [mkNode d (NBlock es)]) (mkExpr (length heap))
    = Ret (to_int (Z.of_nat (length es))).
Proof. unfold nexprs. by rewrite read_new. Qed.

End Block.

(** C8, as the code has it.  [Block::make] succeeds for every sequence of
    handles and the node has type None.  [expr(i)] returns exactly the
    i-th handle of the sequence for every [int] index [i] below its
    length.  [nexprs()] is the length converted to [int]: it is the length
    [n] itself when [n <= INT_MAX]. *)
Theorem Block_make_stores (es : list Expr) (heap : Heap) :
  exists b heap',
    Block_make es heap = Ret (b, heap') /\
    dtype heap' b = Ret kNull /\
    nexprs heap' b = Ret (Int.to_int (Z.of_nat (length es))) /\
    (Z.of_nat (length es) <= Int.INT_MAX ->
     nexprs heap' b = Ret (Z.of_nat (length es))) /\
    (forall (i : nat) (e : Expr),
       es !! i = Some e -> Int.is_int (Z.of_nat i) ->
       expr heap' b (Z.of_nat i) = Ret e).
Proof.
  exists (mkExpr (length heap)), (heap ++ [mkNode kNull (NBlock es)]).
  split; [reflexivity|].
  split; [unfold dtype; by rewrite read_new|].
  split; [apply nexprs_new|].
  split.
  - intros Hlen. rewrite nexprs_new, to_int_id; [done|].
    unfold Int.is_int, Int.INT_MIN. split; [|done].
    change (2 ^ 31) with 2147483648. lia.
  - intros i e He Hi. unfold expr. rewrite read_new. simpl.
    by apply vector_index_in_range.
Qed.

(** The scenario of the specification: a block of three expressions. *)
Lemma Block_make_stores_witness :
  exists b heap',
    Block_make [mkExpr 0; mkExpr 1; mkExpr 2]
      [mkNode kInt32 (NIntImm 5); mkNode kInt32 (NIntImm 6);
       mkNode kNull NEmptyExpr] = Ret (b, heap') /\
    nexprs heap' b = Ret 3 /\
    expr heap' b 0 = Ret (mkExpr 0) /\
    expr heap' b 1 = Ret (mkExpr 1) /\
    expr heap' b 2 = Ret (mkExpr 2).
Proof.
  destruct (Block_make_stores [mkExpr 0; mkExpr 1; mkExpr 2]
      [mkNode kInt32 (NIntImm 5); mkNode kInt32 (NIntImm 6);
       mkNode kNull NEmptyExpr])
    as (b & heap' & Hmake & _ & _ & Hn & Hexpr).
  exists b, heap'.
  split; [exact Hmake|].
  split; [apply Hn; vm_compute; discriminate|].
  split; [apply (Hexpr 0%nat); [reflexivity | vm_compute; split; discriminate]|].
  split; [apply (Hexpr 1%nat); [reflexivity | vm_compute; split; discriminate]|].
  apply (Hexpr 2%nat); [reflexivity | vm_compute; split; discriminate].
Defined.

(** A block of 2^31 handles: [nexprs()] is not the length of the sequence
    but [INT_MIN]. *)
Lemma Block_nexprs_wraps :
  exists e heap b heap',
    EmptyExpr_make [] = Ret (e, heap) /\
    Block_make (replicate (Z.to_nat 2147483648) e) heap = Ret (b, heap') /\
    nexprs heap' b = Ret (-2147483648) /\
    nexprs heap' b
      <> Ret (Z.of_nat (length (replicate (Z.to_nat 2147483648) e))).
Proof.
  exists (mkExpr 0), [mkNode kNull NEmptyExpr], (mkExpr 1).
  eexists.
  split; [reflexivity|].
  split; [reflexivity|].
  pose proof (nexprs_new [mkNode kNull NEmptyExpr] kNull
                (replicate (Z.to_nat 2147483648) (mkExpr 0))) as Hn.
  rewrite length_replicate, Z2Nat.id in Hn by lia.
  change (Int.to_int 2147483648) with (-2147483648) in Hn.
  split; [exact Hn|].
  rewrite length_replicate, Z2Nat.id by lia.
  replace (nexprs _ _) with (@Ret Z (-2147483648)) by (symmetry; exact Hn).
  intros [=].
Qed.

(** C2, as the code has it.  [Block::expr] indexes the vector without a
    check.  For a block of at most [INT_MAX] handles, so that [nexprs()]
    is their number, an [int] index in [[0, nexprs())] yields the handle
    stored there, and an index outside has undefined behaviour: no failure
    is reported. *)
Theorem Block_expr_unchecked
    (heap : Heap) (b : Expr) (d : Dtype) (es : list Expr) (index : Z) :
  deref heap b = Some (mkNode d (NBlock es)) ->
  Z.of_nat (length es) <= Int.INT_MAX ->
  Int.is_int index ->
  nexprs heap b = Ret (Z.of_nat (length es)) /\
  (0 <= index < Z.of_nat (length es) ->
   exists e, es !! Z.to_nat index = Some e /\ expr heap b index = Ret e) /\
  (~ (0 <= index < Z.of_nat (length es)) -> expr heap b index = Undefined).
Proof.
  intros Hb Hlen Hi.
  unfold nexprs, expr, read. rewrite Hb. simpl.
  split.
  { rewrite to_int_id; [done|].
    unfold Int.is_int, Int.INT_MIN. split; [|done].
    change (2 ^ 31) with 2147483648. lia. }
  split.
  - intros Hin.
    destruct (lookup_lt_is_Some_2 es (Z.to_nat index)) as [e He]; [lia|].
    exists e. split; [done|].
    rewrite <- (Z2Nat.id index) by lia.
    apply vector_index_in_range; [done|]. by rewrite Z2Nat.id by lia.
  - intros Hout. by apply vector_index_past_end.
Qed.

(** A block of three expressions, read at 1, at 3 and at -1. *)
Lemma Block_expr_unchecked_witness :
  let heap := [mkNode kNull NEmptyExpr;
               mkNode kNull (NBlock [mkExpr 0; mkExpr 0; mkExpr 0])] in
  nexprs heap (mkExpr 1) = Ret 3 /\
  expr heap (mkExpr 1) 1 = Ret (mkExpr 0) /\
  expr heap (mkExpr 1) 3 = Undefined /\
  expr heap (mkExpr 1) (-1) = Undefined.
Proof.
  intros heap.
  assert (Hlen : Z.of_nat (length [mkExpr 0; mkExpr 0; mkExpr 0])
                 <= Int.INT_MAX) by (vm_compute; discriminate).
  assert (Hint : forall z, -4 <= z <= 4 -> Int.is_int z).
  { intros z Hz. unfold Int.is_int, Int.INT_MIN, Int.INT_MAX.
    change (2 ^ 31) with 2147483648. lia. }
  split.
  { apply (Block_expr_unchecked heap (mkExpr 1) kNull
             [mkExpr 0; mkExpr 0; mkExpr 0] 0 eq_refl Hlen).
    apply Hint; lia. }
  split.
  { destruct (Block_expr_unchecked heap (mkExpr 1) kNull
                [mkExpr 0; mkExpr 0; mkExpr 0] 1 eq_refl Hlen)
      as (_ & Hin & _); [apply Hint; lia|].
    destruct Hin as (e & He & Hexpr); [simpl; lia|].
    simpl in He. injection He as <-. exact Hexpr. }
  split.
  { apply (Block_expr_unchecked heap (mkExpr 1) kNull
             [mkExpr 0; mkExpr 0; mkExpr 0] 3 eq_refl Hlen);
      [apply Hint; lia | simpl; lia]. }
  apply (Block_expr_unchecked heap (mkExpr 1) kNull
           [mkExpr 0; mkExpr 0; mkExpr 0] (-1) eq_refl Hlen);
    [apply Hint; lia | simpl; lia].
Defined.

(** [Block::make([e, e, e]).expr(3)] does not fail with an out-of-range
    condition: the access is undefined. *)
Lemma Block_expr_past_end_unreported :
  exists e heap b heap',
    EmptyExpr_make [] = Ret (e, heap) /\
    Block_make [e; e; e] heap = Ret (b, heap') /\
    nexprs heap' b = Ret 3 /\
    ~ (0 <= 3 < 3) /\
    expr heap' b 3 = Undefined /\
    expr heap' b 3 <> Fail OutOfRange.
Proof.
  eexists _, _, _, _.
  split; [reflexivity|].
  split; [reflexivity|].
  split; [reflexivity|].
  split; [lia|].
  split; [reflexivity|].
  vm_compute. discriminate.
Qed.

(** ** Promotion *)

(** C6. [BinaryOpDtype] (the specification's [promote]) is commutative,
    failures included, and returns its argument when both are the same
    descriptor. *)
Theorem BinaryOpDtype_comm_idem :
  (forall a b : Dtype, BinaryOpDtype a b = BinaryOpDtype b a) /\
  (forall a : Dtype, BinaryOpDtype a a = Ret a).
Proof.
  split.
  - intros [ka la] [kb lb]. unfold BinaryOpDtype; simpl.
    destruct (decide (mkDtype ka la = mkDtype kb lb)) as [E|NE].
    + rewrite decide_True by done. by rewrite E.
    + rewrite decide_False by congruence.
      destruct (decide (la = lb)) as [->|Hl].
      * rewrite !bool_decide_eq_true_2 by done. simpl.
        destruct ka, kb; simpl; try done; by destruct NE.
      * rewrite !bool_decide_eq_false_2 by congruence. done.
  - intros a. unfold BinaryOpDtype. by rewrite decide_True.
Qed.

(** The promotions the scenarios rely on. *)
Example BinaryOpDtype_table :
  BinaryOpDtype kInt32 kFloat32 = Ret kFloat32 /\
  BinaryOpDtype kFloat32 kInt32 = Ret kFloat32 /\
  BinaryOpDtype kInt32 kInt32 = Ret kInt32 /\
  BinaryOpDtype kInt32 (mkDtype KInt32 4) = Fail LaneMismatch /\
  BinaryOpDtype kNull kInt32 = Fail UnsupportedKinds.
Proof. repeat split. Qed.

(** ** Binary operators *)

Section BinaryOp.

Implicit Types (heap : Heap) (e l r : Expr) (d : Dtype).

Lemma CastIfNeeded_eq e dst heap d :
  dtype heap e = Ret d ->
  CastIfNeeded e dst heap =
    if decide (d = dst) then Ret (e, heap)
    else Ret (mkExpr (length heap), heap ++ [mkNode dst (NCast e)]).
Proof.
  intros Hd. unfold CastIfNeeded, bind, get_dtype. rewrite Hd. simpl.
  by case_decide.
Qed.

(** The operand [CastIfNeeded] returns has the requested descriptor, and
    the store is only extended. *)
Lemma CastIfNeeded_dtype e dst heap d :
  dtype heap e = Ret d ->
  exists e' ext,
    CastIfNeeded e dst heap = Ret (e', heap ++ ext) /\
    dtype (heap ++ ext) e' = Ret dst /\
    (d = dst -> e' = e /\ ext = []) /\
    (d <> dst -> e' = mkExpr (length heap) /\ ext = [mkNode dst (NCast e)]).
Proof.
  intros Hd. rewrite (CastIfNeeded_eq _ _ _ _ Hd).
  case_decide as E.
  - exists e, []. rewrite app_nil_r. subst. repeat split; done.
  - eexists _, _. split; [reflexivity|].
    split; [unfold dtype; by rewrite read_new|].
    split; [done|]. by intros _.
Qed.

(** What a successful construction did. *)
Lemma BinaryOpNode_make_inv op lhs_v rhs_v heap res heap' :
  BinaryOpNode_make op lhs_v rhs_v heap = Ret (res, heap') ->
  exists dl dr d l r ext1 ext2,
    dtype heap lhs_v = Ret dl /\
    dtype heap rhs_v = Ret dr /\
    BinaryOpDtype dl dr = Ret d /\
    CastIfNeeded lhs_v d heap = Ret (l, heap ++ ext1) /\
    CastIfNeeded rhs_v d (heap ++ ext1) = Ret (r, (heap ++ ext1) ++ ext2) /\
    (dl = d -> l = lhs_v /\ ext1 = []) /\
    (dl <> d -> l = mkExpr (length heap) /\ ext1 = [mkNode d (NCast lhs_v)]) /\
    (dr = d -> r = rhs_v /\ ext2 = []) /\
    (dr <> d -> r = mkExpr (length (heap ++ ext1)) /\
                ext2 = [mkNode d (NCast rhs_v)]) /\
    dtype ((heap ++ ext1) ++ ext2) l = Ret d /\
    dtype ((heap ++ ext1) ++ ext2) r = Ret d /\
    res = mkExpr (length ((heap ++ ext1) ++ ext2)) /\
    heap' = ((heap ++ ext1) ++ ext2) ++ [mkNode d (NBinaryOp l r op)].
Proof.
  unfold BinaryOpNode_make, bind at 1 2 3, get_dtype.
  destruct (dtype heap lhs_v) as [dl| |] eqn:Hdl; simpl; try done.
  destruct (dtype heap rhs_v) as [dr| |] eqn:Hdr; simpl; try done.
  destruct (BinaryOpDtype dl dr) as [d| |] eqn:Hd; simpl; try done.
  destruct (CastIfNeeded_dtype lhs_v d heap dl Hdl)
    as (l & ext1 & Hl & Hld & Hl1 & Hl2).
  pose proof (read_app _ heap ext1 rhs_v dr Hdr) as Hdr'.
  destruct (CastIfNeeded_dtype rhs_v d (heap ++ ext1) dr Hdr')
    as (r & ext2 & Hr & Hrd & Hr1 & Hr2).
  unfold bind. rewrite Hl, Hr. unfold new. intros [= <- <-].
  exists dl, dr, d, l, r, ext1, ext2.
  repeat (split; [done|]).
  split; [by apply read_app|]. done.
Qed.

(** Construction is accepted exactly when both handles are live and their
    descriptors promote. *)
Lemma BinaryOpNode_make_accepts op lhs_v rhs_v heap dl dr d :
  dtype heap lhs_v = Ret dl ->
  dtype heap rhs_v = Ret dr ->
  BinaryOpDtype dl dr = Ret d ->
  exists res heap', BinaryOpNode_make op lhs_v rhs_v heap = Ret (res, heap').
Proof.
  intros Hdl Hdr Hd.
  unfold BinaryOpNode_make, bind at 1 2 3, get_dtype.
  rewrite Hdl. simpl. rewrite Hdr. simpl. rewrite Hd. simpl.
  destruct (CastIfNeeded_dtype lhs_v d heap dl Hdl) as (l & ext1 & Hl & _).
  pose proof (read_app _ heap ext1 rhs_v dr Hdr) as Hdr'.
  destruct (CastIfNeeded_dtype rhs_v d (heap ++ ext1) dr Hdr')
    as (r & ext2 & Hr & _).
  unfold bind. rewrite Hl, Hr. unfold new. eauto.
Qed.

Lemma make_of_eq op : make_of op = BinaryOpNode_make op.
Proof. by destruct op. Qed.

End BinaryOp.

(** C1. Whenever [Add::make], [Sub::make], [Mul::make] or [Div::make]
    accepts a pair of handles, the operands stored in the node it returns
    carry the descriptor of the node:
    [result.lhs().dtype() == result.rhs().dtype() == result.dtype()]. *)
Theorem binary_op_operands_share_dtype
    (op : IRNodeType) (lhs_v rhs_v : Expr) (heap : Heap)
    (res : Expr) (heap' : Heap) :
  make_of op lhs_v rhs_v heap = Ret (res, heap') ->
  exists (d : Dtype) (l r : Expr),
    dtype heap' res = Ret d /\
    lhs heap' res = Ret l /\
    rhs heap' res = Ret r /\
    dtype heap' l = Ret d /\
    dtype heap' r = Ret d.
Proof.
  rewrite make_of_eq. intros Hmake.
  destruct (BinaryOpNode_make_inv _ _ _ _ _ _ Hmake)
    as (dl & dr & d & l & r & ext1 & ext2 & _ & _ & _ & _ & _ & _ & _ & _ & _
        & Hld & Hrd & -> & ->).
  exists d, l, r.
  unfold lhs, rhs. unfold dtype at 1. rewrite !read_new. simpl.
  repeat split; by apply read_app.
Qed.

(** [Mul::make] of a float variable and an integer immediate. *)
Lemma binary_op_operands_share_dtype_witness :
  let heap := [mkNode kFloat32 (NVariable "a"); mkNode kInt32 (NIntImm 2)] in
  exists (res : Expr) (heap' : Heap) (l r : Expr),
    Mul_make (mkExpr 0) (mkExpr 1) heap = Ret (res, heap') /\
    dtype heap' res = Ret kFloat32 /\
    lhs heap' res = Ret l /\
    rhs heap' res = Ret r /\
    dtype heap' l = Ret kFloat32 /\
    dtype heap' r = Ret kFloat32.
Proof.
  intros heap.
  destruct (binary_op_operands_share_dtype kMul (mkExpr 0) (mkExpr 1) heap
              (mkExpr 3)
              (heap ++ [mkNode kFloat32 (NCast (mkExpr 1));
                        mkNode kFloat32 (NBinaryOp (mkExpr 0) (mkExpr 2) kMul)])
              eq_refl)
    as (d & l & r & Hd & Hl & Hr & Hld & Hrd).
  exists (mkExpr 3). eexists. exists l, r.
  split; [reflexivity|].
  assert (d = kFloat32) as ->
    by (vm_compute in Hd; injection Hd as <-; reflexivity).
  repeat split; assumption.
Defined.

(** C3. [Add::make(IntImm::make(3), FloatImm::make(2.0))] returns a node
    of type Float32; its [lhs()] is a Cast node of type Float32 whose
    [src_value()] is the handle of the integer immediate, and its [rhs()]
    is the handle of the float immediate. *)
Theorem Add_int_float_promotes (heap : Heap) :
  exists (i f res c : Expr) (heap' : Heap),
    add_int_float heap = Ret ((i, f, res), heap') /\
    deref heap' i = Some (mkNode kInt32 (NIntImm 3)) /\
    deref heap' f = Some (mkNode kFloat32 (NFloatImm float_2)) /\
    dtype heap' res = Ret kFloat32 /\
    expr_type heap' res = Ret kAdd /\
    lhs heap' res = Ret c /\
    is_Cast heap' c = true /\
    dtype heap' c = Ret kFloat32 /\
    src_value heap' c = Ret i /\
    rhs heap' res = Ret f.
Proof.
  set (ni := mkNode kInt32 (NIntImm 3)).
  set (nf := mkNode kFloat32 (NFloatImm float_2)).
  set (heap2 := (heap ++ [ni]) ++ [nf]).
  set (i := mkExpr (length heap)).
  set (f := mkExpr (length (heap ++ [ni]))).
  assert (Hi : deref heap2 i = Some ni) by apply deref_app, deref_new.
  assert (Hf : deref heap2 f = Some nf) by apply deref_new.
  assert (Hdi : dtype heap2 i = Ret kInt32)
    by (unfold dtype, read; by rewrite Hi).
  assert (Hdf : dtype heap2 f = Ret kFloat32)
    by (unfold dtype, read; by rewrite Hf).
  set (c := mkExpr (length heap2)).
  set (nc := mkNode kFloat32 (NCast i)).
  set (res := mkExpr (length (heap2 ++ [nc]))).
  set (nr := mkNode kFloat32 (NBinaryOp c f kAdd)).
  assert (Hadd : Add_make i f heap2 = Ret (res, (heap2 ++ [nc]) ++ [nr])).
  { unfold Add_make, BinaryOpNode_make, bind at 1 2 3, get_dtype.
    rewrite Hdi. simpl. rewrite Hdf. simpl.
    unfold bind at 1. rewrite (CastIfNeeded_eq _ _ _ _ Hdi). simpl.
    unfold bind. rewrite (CastIfNeeded_eq f kFloat32 _ kFloat32)
      by (by apply read_app).
    reflexivity. }
  exists i, f, res, c, ((heap2 ++ [nc]) ++ [nr]).
  split.
  { unfold add_int_float, bind, IntImm_make, FloatImm_make, new.
    fold ni nf heap2 i f. rewrite Hadd. reflexivity. }
  split; [by do 2 apply deref_app|].
  split; [by do 2 apply deref_app|].
  assert (Hc : deref ((heap2 ++ [nc]) ++ [nr]) c = Some nc)
    by apply deref_app, deref_new.
  unfold dtype, expr_type, lhs, rhs, src_value, is_Cast.
  rewrite !read_new. unfold read. by rewrite Hc.
Qed.

(** C4. An operand whose descriptor is already the promoted one is stored
    as the very handle that was passed, and no Cast node over it is
    allocated; when both operands are such, the construction allocates the
    operator node only.  In particular
    [Add::make(IntImm::make(3), IntImm::make(4))] has type Int32 and its
    [lhs()] and [rhs()] are the handles of the two immediates. *)
Theorem operands_of_result_type_reused :
  (forall (op : IRNodeType) (lhs_v rhs_v : Expr) (heap : Heap)
          (res : Expr) (heap' : Heap) (d : Dtype),
     make_of op lhs_v rhs_v heap = Ret (res, heap') ->
     dtype heap' res = Ret d ->
     (dtype heap lhs_v = Ret d ->
      lhs heap' res = Ret lhs_v /\
      forall n, n ∈ allocated heap heap' -> data n <> NCast lhs_v) /\
     (dtype heap rhs_v = Ret d ->
      rhs heap' res = Ret rhs_v /\
      forall n, n ∈ allocated heap heap' -> data n <> NCast rhs_v) /\
     (dtype heap lhs_v = Ret d -> dtype heap rhs_v = Ret d ->
      allocated heap heap' = [mkNode d (NBinaryOp lhs_v rhs_v op)])) /\
  (forall heap : Heap,
     exists (i j res : Expr) (heap' : Heap),
       add_int_int heap = Ret ((i, j, res), heap') /\
       deref heap' i = Some (mkNode kInt32 (NIntImm 3)) /\
       deref heap' j = Some (mkNode kInt32 (NIntImm 4)) /\
       dtype heap' res = Ret kInt32 /\
       lhs heap' res = Ret i /\
       rhs heap' res = Ret j /\
       allocated heap heap' =
         [mkNode kInt32 (NIntImm 3); mkNode kInt32 (NIntImm 4);
          mkNode kInt32 (NBinaryOp i j kAdd)]).
Proof.
  split.
  - intros op lhs_v rhs_v heap res heap' d0. rewrite make_of_eq.
    intros Hmake Hres.
    destruct (BinaryOpNode_make_inv _ _ _ _ _ _ Hmake)
      as (dl & dr & d & l & r & ext1 & ext2 & Hdl & Hdr & _ & _ & _
          & Hl1 & Hl2 & Hr1 & Hr2 & _ & _ & -> & ->).
    unfold dtype in Hres. rewrite read_new in Hres. simpl in Hres.
    injection Hres as <-.
    unfold lhs, rhs. rewrite !read_new. simpl.
    rewrite <- !app_assoc, allocated_app.
    assert (Hext1 : forall n, n ∈ ext1 -> data n = NCast lhs_v /\ dl <> d).
    { intros n Hn. destruct (decide (dl = d)) as [E|E].
      - destruct (Hl1 E) as [_ ->]. by apply not_elem_of_nil in Hn.
      - destruct (Hl2 E) as [_ ->]. apply list_elem_of_singleton in Hn.
        by subst n. }
    assert (Hext2 : forall n, n ∈ ext2 -> data n = NCast rhs_v /\ dr <> d).
    { intros n Hn. destruct (decide (dr = d)) as [E|E].
      - destruct (Hr1 E) as [_ ->]. by apply not_elem_of_nil in Hn.
      - destruct (Hr2 E) as [_ ->]. apply list_elem_of_singleton in Hn.
        by subst n. }
    split; [|split].
    + intros Hd. assert (dl = d) as E by congruence.
      destruct (Hl1 E) as [-> ->]. split; [done|].
      intros n Hn. rewrite !elem_of_app in Hn.
      destruct Hn as [Hn|[Hn|Hn]].
      * by apply not_elem_of_nil in Hn.
      * destruct (Hext2 n Hn) as [Hc Hne]. rewrite Hc. intros [= ->].
        congruence.
      * apply list_elem_of_singleton in Hn. by subst n.
    + intros Hd. assert (dr = d) as E by congruence.
      destruct (Hr1 E) as [-> ->]. split; [done|].
      intros n Hn. rewrite !elem_of_app in Hn.
      destruct Hn as [Hn|[Hn|Hn]].
      * destruct (Hext1 n Hn) as [Hc Hne]. rewrite Hc. intros [= ->].
        congruence.
      * by apply not_elem_of_nil in Hn.
      * apply list_elem_of_singleton in Hn. by subst n.
    + intros Hd1 Hd2.
      assert (dl = d) as E1 by congruence.
      assert (dr = d) as E2 by congruence.
      destruct (Hl1 E1) as [-> ->]. destruct (Hr1 E2) as [-> ->]. done.
  - intros heap.
    set (ni := mkNode kInt32 (NIntImm 3)).
    set (nj := mkNode kInt32 (NIntImm 4)).
    set (heap2 := (heap ++ [ni]) ++ [nj]).
    set (i := mkExpr (length heap)).
    set (j := mkExpr (length (heap ++ [ni]))).
    assert (Hi : deref heap2 i = Some ni) by apply deref_app, deref_new.
    assert (Hj : deref heap2 j = Some nj) by apply deref_new.
    assert (Hdi : dtype heap2 i = Ret kInt32)
      by (unfold dtype, read; by rewrite Hi).
    assert (Hdj : dtype heap2 j = Ret kInt32)
      by (unfold dtype, read; by rewrite Hj).
    set (res := mkExpr (length heap2)).
    set (nr := mkNode kInt32 (NBinaryOp i j kAdd)).
    assert (Hadd : Add_make i j heap2 = Ret (res, heap2 ++ [nr])).
    { unfold Add_make, BinaryOpNode_make, bind at 1 2 3, get_dtype.
      rewrite Hdi. simpl. rewrite Hdj. simpl.
      unfold bind at 1. rewrite (CastIfNeeded_eq _ _ _ _ Hdi). simpl.
      unfold bind. rewrite (CastIfNeeded_eq _ _ _ _ Hdj). reflexivity. }
    exists i, j, res, (heap2 ++ [nr]).
    split.
    { unfold add_int_int, bind, IntImm_make, FloatImm_make, new.
      fold ni nj heap2 i j. rewrite Hadd. reflexivity. }
    split; [by apply deref_app|].
    split; [by apply deref_app|].
    unfold dtype, lhs, rhs. rewrite !read_new. simpl.
    repeat split.
    unfold heap2. rewrite <- !app_assoc. apply allocated_app.
Qed.

(** [Add::make] of two integer immediates already in the store. *)
Lemma operands_of_result_type_reused_witness :
  let heap := [mkNode kInt32 (NIntImm 3); mkNode kInt32 (NIntImm 4)] in
  let heap' := heap ++ [mkNode kInt32 (NBinaryOp (mkExpr 0) (mkExpr 1) kAdd)] in
  Add_make (mkExpr 0) (mkExpr 1) heap = Ret (mkExpr 2, heap') /\
  lhs heap' (mkExpr 2) = Ret (mkExpr 0) /\
  rhs heap' (mkExpr 2) = Ret (mkExpr 1) /\
  allocated heap heap' =
    [mkNode kInt32 (NBinaryOp (mkExpr 0) (mkExpr 1) kAdd)].
Proof.
  intros heap heap'.
  destruct (proj1 operands_of_result_type_reused kAdd (mkExpr 0) (mkExpr 1)
              heap (mkExpr 2) heap' kInt32 eq_refl eq_refl)
    as (Hl & Hr & Hboth).
  split; [reflexivity|].
  split; [exact (proj1 (Hl eq_refl))|].
  split; [exact (proj1 (Hr eq_refl))|].
  exact (Hboth eq_refl eq_refl).
Defined.

(** ** Every factory at once *)

Section Calls.

Implicit Types (c : Call) (heap ext casts : Heap) (e res : Expr).

Lemma deref_app_inv heap ext e n :
  deref (heap ++ ext) e = Some n ->
  deref heap e = Some n \/
  ((length heap <= node_ptr e)%nat /\ ext !! (node_ptr e - length heap)%nat = Some n).
Proof.
  unfold deref. rewrite lookup_app_Some. tauto.
Qed.

Lemma live_lt heap e : live heap e -> (node_ptr e < length heap)%nat.
Proof. unfold live, deref. apply lookup_lt_is_Some_1. Qed.

(** A factory other than a binary operator allocates one node, and that
    node holds the handles of the call, in order. *)
Lemma run_single c heap res heap' :
  is_binary c = false ->
  run c heap = Ret (res, heap') ->
  exists n,
    heap' = heap ++ [n] /\
    res = mkExpr (length heap) /\
    children (data n) = handles_of c /\
    (forall l r op, data n <> NBinaryOp l r op) /\
    (forall d, fixed_dtype (data n) = Some d -> dtype_ n = d).
Proof.
  intros Hb Hrun.
  destruct c; try discriminate Hb; simpl in Hrun;
    try (injection Hrun as <- <-; eexists; repeat split; simpl;
         congruence).
  unfold cast, bind, get_dtype in Hrun.
  destruct (dtype heap src_value0); simpl in Hrun; try discriminate.
  injection Hrun as <- <-. eexists; repeat split; simpl; congruence.
Qed.

(** What any successful call did to the store: it appended at most two
    Cast nodes over handles of the call and then the node it returns. *)
Lemma run_shape c heap res heap' :
  run c heap = Ret (res, heap') ->
  exists casts n,
    heap' = (heap ++ casts) ++ [n] /\
    res = mkExpr (length (heap ++ casts)) /\
    (is_binary c = false -> casts = []) /\
    (forall i m, casts !! i = Some m ->
       exists a, a ∈ handles_of c /\ data m = NCast a) /\
    (forall ch, ch ∈ children (data n) ->
       ch ∈ handles_of c \/
       (length heap <= node_ptr ch < length (heap ++ casts))%nat).
Proof.
  intros Hrun. destruct (is_binary c) eqn:Hb.
  - destruct c; try discriminate Hb. simpl in Hrun.
    rewrite make_of_eq in Hrun.
    destruct (BinaryOpNode_make_inv _ _ _ _ _ _ Hrun)
      as (dl & dr & d & l & r & ext1 & ext2 & Hdl & Hdr & _ & _ & _
          & Hl1 & Hl2 & Hr1 & Hr2 & _ & _ & -> & ->).
    exists (ext1 ++ ext2). eexists.
    rewrite !app_assoc. split; [reflexivity|]. split; [reflexivity|].
    split; [done|]. simpl.
    destruct (decide (dl = d)) as [E1|E1];
      [destruct (Hl1 E1) as [-> ->] | destruct (Hl2 E1) as [-> ->]];
      (destruct (decide (dr = d)) as [E2|E2];
       [destruct (Hr1 E2) as [-> ->] | destruct (Hr2 E2) as [-> ->]]);
      simpl; (split;
        [ intros [|[|i]] m Hm; simplify_eq/=;
          eexists; (split; [|reflexivity]);
          rewrite !elem_of_cons; tauto
        | intros ch Hch; rewrite ?length_app; simpl;
          rewrite !elem_of_cons, elem_of_nil in Hch |- *;
          destruct Hch as [->|[->|[]]]; rewrite ?length_app; simpl;
          first [ left; tauto | right; lia ] ]).
  - destruct (run_single c heap res heap' Hb Hrun)
      as (n & -> & -> & Hch & _).
    exists [], n. rewrite app_nil_r.
    split; [done|]. split; [done|]. split; [done|].
    split; [intros i m Hm; by rewrite lookup_nil in Hm|].
    intros ch Hin. left. by rewrite <- Hch.
Qed.

(** The nodes a successful call appended, with what the invariants below
    need to know about them. *)
Lemma run_new_nodes c heap res heap' :
  run c heap = Ret (res, heap') ->
  exists ext,
    heap' = heap ++ ext /\
    forall i m, ext !! i = Some m ->
      (forall d, fixed_dtype (data m) = Some d -> dtype_ m = d) /\
      (forall l r op, data m = NBinaryOp l r op ->
         dtype heap' l = Ret (dtype_ m) /\ dtype heap' r = Ret (dtype_ m)).
Proof.
  intros Hrun. destruct (is_binary c) eqn:Hb.
  - destruct c; try discriminate Hb. simpl in Hrun.
    rewrite make_of_eq in Hrun.
    destruct (BinaryOpNode_make_inv _ _ _ _ _ _ Hrun)
      as (dl & dr & d & l & r & ext1 & ext2 & _ & _ & _ & _ & _
          & Hl1 & Hl2 & Hr1 & Hr2 & Hld & Hrd & -> & ->).
    exists (ext1 ++ ext2 ++ [mkNode d (NBinaryOp l r op)]).
    split; [by rewrite !app_assoc|].
    assert (Hcasts : forall i m, (ext1 ++ ext2) !! i = Some m ->
              exists a, data m = NCast a).
    { destruct (decide (dl = d)) as [E1|E1];
        [destruct (Hl1 E1) as [_ ->] | destruct (Hl2 E1) as [_ ->]];
        (destruct (decide (dr = d)) as [E2|E2];
         [destruct (Hr1 E2) as [_ ->] | destruct (Hr2 E2) as [_ ->]]);
        intros [|[|i]] m Hm; simplify_eq/=; eauto. }
    intros i m Hm. rewrite app_assoc in Hm.
    apply lookup_app_Some in Hm as [Hm|[_ Hm]].
    + destruct (Hcasts i m Hm) as [a Ha]. rewrite Ha. by split.
    + apply list_lookup_singleton_Some in Hm as [_ <-]. simpl.
      split; [done|]. intros l0 r0 op0 [= <- <- <-].
      split; by apply read_app.
  - destruct (run_single c heap res heap' Hb Hrun)
      as (n & -> & -> & _ & Hnb & Hfix).
    exists [n]. split; [done|].
    intros i m Hm. apply list_lookup_singleton_Some in Hm as [_ <-].
    split; [exact Hfix|]. intros l r op Hd. by destruct (Hnb l r op).
Qed.

(** A small store built by the factories: 3, 2.0f and their sum. *)
Lemma built_sample :
  built [mkNode kInt32 (NIntImm 3); mkNode kFloat32 (NFloatImm float_2);
         mkNode kFloat32 (NCast (mkExpr 0));
         mkNode kFloat32 (NBinaryOp (mkExpr 2) (mkExpr 1) kAdd)].
Proof.
  apply (built_run (call_BinaryOp_make kAdd (mkExpr 0) (mkExpr 1))
           [mkNode kInt32 (NIntImm 3); mkNode kFloat32 (NFloatImm float_2)]
           (mkExpr 3)).
  - apply (built_run (call_FloatImm_make float_2)
             [mkNode kInt32 (NIntImm 3)] (mkExpr 1)).
    + apply (built_run (call_IntImm_make 3) [] (mkExpr 0)).
      * apply built_empty.
      * apply Forall_nil_2.
      * reflexivity.
    + apply Forall_nil_2.
    + reflexivity.
  - apply Forall_cons_2; [by eexists|].
    apply Forall_cons_2; [by eexists|]. apply Forall_nil_2.
  - reflexivity.
Defined.

(** Handles held in a built store point backwards. *)
Lemma built_child_lt heap :
  built heap ->
  forall e n ch,
    deref heap e = Some n -> ch ∈ children (data n) ->
    (node_ptr ch < node_ptr e)%nat.
Proof.
  induction 1 as [|c heap res heap' Hb IH Hargs Hrun].
  - intros e n ch He. unfold deref in He. by rewrite lookup_nil in He.
  - destruct (run_shape c heap res heap' Hrun)
      as (casts & m & -> & _ & _ & Hcasts & Hm).
    rewrite Forall_forall in Hargs.
    intros e n ch He Hch.
    apply deref_app_inv in He as [He|[Hge He]].
    + apply deref_app_inv in He as [He|[Hge He]].
      * by apply (IH e n ch).
      * destruct (Hcasts _ _ He) as (a & Ha & Hd).
        rewrite Hd in Hch. apply list_elem_of_singleton in Hch as ->.
        pose proof (live_lt _ _ (Hargs a Ha)). lia.
    + apply list_lookup_singleton_Some in He as [_ <-].
      destruct (Hm ch Hch) as [Ha|Hc].
      * pose proof (live_lt _ _ (Hargs ch Ha)).
        rewrite length_app in Hge. lia.
      * lia.
Qed.

End Calls.

(** X1. No factory touches a node that exists: after a successful call
    every handle that was live points to the same node as before, so
    every accessor reads what it read before; the store has grown. *)
Theorem run_keeps_nodes (c : Call) (heap : Heap) (res : Expr) (heap' : Heap) :
  run c heap = Ret (res, heap') ->
  (forall e n, deref heap e = Some n -> deref heap' e = Some n) /\
  (forall e d, dtype heap e = Ret d -> dtype heap' e = Ret d) /\
  (length heap < length heap')%nat.
Proof.
  intros Hrun.
  destruct (run_shape c heap res heap' Hrun) as (casts & n & -> & _).
  split; [|split].
  - intros e m He. by do 2 apply deref_app.
  - intros e d He. by do 2 apply read_app.
  - rewrite !length_app. simpl. lia.
Qed.

(** A cast allocated after an integer immediate leaves the immediate as it
    was. *)
Lemma run_keeps_nodes_witness :
  let heap := [mkNode kInt32 (NIntImm 3)] in
  let heap' := heap ++ [mkNode kFloat32 (NCast (mkExpr 0))] in
  deref heap' (mkExpr 0) = Some (mkNode kInt32 (NIntImm 3)) /\
  dtype heap' (mkExpr 0) = Ret kInt32.
Proof.
  intros heap heap'.
  destruct (run_keeps_nodes (call_cast c_float (mkExpr 0)) heap (mkExpr 1)
              heap' eq_refl) as (Hnode & Hdtype & _).
  split; [apply Hnode | apply Hdtype]; reflexivity.
Defined.





(** X4. The invariant of the binary operators holds in the whole store,
    and keeps holding whatever is built later: in every store built by the
    factories, the two operands held by any Add, Sub, Mul or Div node
    have the descriptor of that node. *)
Theorem built_operands_typed (heap : Heap) :
  built heap ->
  forall e d l r op,
    deref heap e = Some (mkNode d (NBinaryOp l r op)) ->
    dtype heap l = Ret d /\ dtype heap r = Ret d.
Proof.
  induction 1 as [|c heap res heap' Hb IH Hargs Hrun].
  - intros e d l r op He. unfold deref in He. by rewrite lookup_nil in He.
  - destruct (run_new_nodes c heap res heap' Hrun) as (ext & -> & Hext).
    intros e d l r op He.
    apply deref_app_inv in He as [He|[_ He]].
    + destruct (IH e d l r op He) as [Hl Hr]. split; by apply read_app.
    + exact (proj2 (Hext _ _ He) l r op eq_refl).
Qed.

(** The Add node of the sample store. *)
Lemma built_operands_typed_witness :
  let heap := [mkNode kInt32 (NIntImm 3); mkNode kFloat32 (NFloatImm float_2);
               mkNode kFloat32 (NCast (mkExpr 0));
               mkNode kFloat32 (NBinaryOp (mkExpr 2) (mkExpr 1) kAdd)] in
  dtype heap (mkExpr 2) = Ret kFloat32 /\ dtype heap (mkExpr 1) = Ret kFloat32.
Proof.
  exact (built_operands_typed _ built_sample (mkExpr 3) kFloat32
           (mkExpr 2) (mkExpr 1) kAdd eq_refl).
Defined.

(** X5. The class of a node fixes its descriptor where the constructor
    does: in every store built by the factories an IntImm node has type
    Int32, a FloatImm node Float32, and a Block, For or EmptyExpr node
    the null type. *)
Theorem built_fixed_dtype (heap : Heap) :
  built heap ->
  forall e n d,
    deref heap e = Some n -> fixed_dtype (data n) = Some d ->
    dtype heap e = Ret d.
Proof.
  intros Hb e n d He Hfix.
  enough (dtype_ n = d) as <- by (unfold dtype, read; by rewrite He).
  revert e n d He Hfix.
  induction Hb as [|c heap res heap' Hb IH Hargs Hrun]; intros e n d He Hfix.
  - unfold deref in He. by rewrite lookup_nil in He.
  - destruct (run_new_nodes c heap res heap' Hrun) as (ext & -> & Hext).
    apply deref_app_inv in He as [He|[_ He]].
    + by apply (IH e n d).
    + by apply (proj1 (Hext _ _ He)).
Qed.

(** The integer immediate of the sample store. *)
Lemma built_fixed_dtype_witness :
  dtype [mkNode kInt32 (NIntImm 3); mkNode kFloat32 (NFloatImm float_2);
         mkNode kFloat32 (NCast (mkExpr 0));
         mkNode kFloat32 (NBinaryOp (mkExpr 2) (mkExpr 1) kAdd)] (mkExpr 0)
    = Ret kInt32.
Proof.
  exact (built_fixed_dtype _ built_sample (mkExpr 0)
           (mkNode kInt32 (NIntImm 3)) kInt32 eq_refl eq_refl).
Defined.

(** X6. A factory other than a binary operator allocates exactly one
    node, the one it returns, and that node holds the handles of the call
    as they were given, in order: [Cast::make], [cast<T>], [Block::make]
    and [For::make] never wrap or replace an argument, whatever the
    descriptors of the arguments are. *)
Theorem other_factories_allocate_one_node
    (c : Call) (heap : Heap) (res : Expr) (heap' : Heap) :
  is_binary c = false ->
  run c heap = Ret (res, heap') ->
  exists n,
    allocated heap heap' = [n] /\
    deref heap' res = Some n /\
    children (data n) = handles_of c.
Proof.
  intros Hb Hrun.
  destruct (run_single c heap res heap' Hb Hrun) as (n & -> & -> & Hch & _).
  exists n. split; [apply allocated_app|]. split; [apply deref_new|done].
Qed.

(** A loop over an integer start and a float stop: both are held as given. *)
Lemma other_factories_allocate_one_node_witness :
  let heap := [mkNode kInt32 (NVariable "i"); mkNode kInt32 (NIntImm 0);
               mkNode kFloat32 (NFloatImm float_2); mkNode kNull (NBlock [])] in
  exists res heap' n,
    For_make (mkExpr 0) (mkExpr 1) (mkExpr 2) (mkExpr 3) heap
      = Ret (res, heap') /\
    allocated heap heap' = [n] /\
    children (data n) = [mkExpr 0; mkExpr 1; mkExpr 2; mkExpr 3].
Proof.
  intros heap.
  destruct (other_factories_allocate_one_node
              (call_For_make (mkExpr 0) (mkExpr 1) (mkExpr 2) (mkExpr 3))
              heap (mkExpr 4)
              (heap ++ [mkNode kNull
                          (NFor (mkExpr 0) (mkExpr 1) (mkExpr 2) (mkExpr 3))])
              eq_refl eq_refl) as (n & Hall & _ & Hch).
  exists (mkExpr 4). eexists. exists n.
  split; [reflexivity|]. split; assumption.
Defined.

(** ** More on the binary operators *)

(** X7. The node built by [Add::make], [Sub::make], [Mul::make] or
    [Div::make] reports the tag of its class: [expr_type()] is [kAdd],
    [kSub], [kMul] or [kDiv] respectively, also when operands were cast. *)
Theorem make_of_expr_type
    (op : IRNodeType) (lhs_v rhs_v : Expr) (heap : Heap)
    (res : Expr) (heap' : Heap) :
  make_of op lhs_v rhs_v heap = Ret (res, heap') ->
  expr_type heap' res = Ret op.
Proof.
  rewrite make_of_eq. intros Hmake.
  destruct (BinaryOpNode_make_inv _ _ _ _ _ _ Hmake)
    as (dl & dr & d & l & r & ext1 & ext2 & _ & _ & _ & _ & _ & _ & _ & _ & _
        & _ & _ & -> & ->).
  unfold expr_type. by rewrite read_new.
Qed.

(** [Div::make] of an integer and a float. *)
Lemma make_of_expr_type_witness :
  let heap := [mkNode kInt32 (NIntImm 1); mkNode kFloat32 (NFloatImm float_2)] in
  exists res heap',
    Div_make (mkExpr 0) (mkExpr 1) heap = Ret (res, heap') /\
    expr_type heap' res = Ret kDiv.
Proof.
  intros heap. eexists _, _. split; [reflexivity|].
  exact (make_of_expr_type kDiv (mkExpr 0) (mkExpr 1) heap _ _ eq_refl).
Defined.

(** X8. The descriptor of a binary node is what [BinaryOpDtype] returns
    for the descriptors of the two operands, and a failure of
    [BinaryOpDtype] is the result of the factory: no node is returned. *)
Theorem make_of_promotes_or_fails
    (op : IRNodeType) (lhs_v rhs_v : Expr) (heap : Heap) (dl dr : Dtype) :
  dtype heap lhs_v = Ret dl ->
  dtype heap rhs_v = Ret dr ->
  match BinaryOpDtype dl dr with
  | Ret d => exists res heap',
      make_of op lhs_v rhs_v heap = Ret (res, heap') /\
      dtype heap' res = Ret d
  | Fail f => make_of op lhs_v rhs_v heap = Fail f
  | Undefined => make_of op lhs_v rhs_v heap = Undefined
  end.
Proof.
  intros Hdl Hdr. rewrite make_of_eq.
  destruct (BinaryOpDtype dl dr) as [d|f|] eqn:Hd.
  - destruct (BinaryOpNode_make_accepts op _ _ _ _ _ _ Hdl Hdr Hd)
      as (res & heap' & Hmake).
    exists res, heap'. split; [exact Hmake|].
    destruct (BinaryOpNode_make_inv _ _ _ _ _ _ Hmake)
      as (dl' & dr' & d' & l & r & ext1 & ext2 & Hdl' & Hdr' & Hd' & _ & _
          & _ & _ & _ & _ & _ & _ & -> & ->).
    unfold dtype. rewrite read_new. simpl. congruence.
  - unfold BinaryOpNode_make, bind at 1 2 3, get_dtype.
    rewrite Hdl. simpl. rewrite Hdr. simpl. by rewrite Hd.
  - unfold BinaryOpNode_make, bind at 1 2 3, get_dtype.
    rewrite Hdl. simpl. rewrite Hdr. simpl. by rewrite Hd.
Qed.

(** An accepted and a rejected construction: a float variable times an
    integer, and a four-lane variable plus a scalar. *)
Lemma make_of_promotes_or_fails_witness :
  let heap := [mkNode kFloat32 (NVariable "a"); mkNode kInt32 (NIntImm 2);
               mkNode (mkDtype KInt32 4) (NVariable "v")] in
  (exists res heap',
     Mul_make (mkExpr 0) (mkExpr 1) heap = Ret (res, heap') /\
     dtype heap' res = Ret kFloat32) /\
  Add_make (mkExpr 2) (mkExpr 1) heap = Fail LaneMismatch.
Proof.
  intros heap. split.
  - exact (make_of_promotes_or_fails kMul (mkExpr 0) (mkExpr 1) heap
             kFloat32 kInt32 eq_refl eq_refl).
  - exact (make_of_promotes_or_fails kAdd (mkExpr 2) (mkExpr 1) heap
             (mkDtype KInt32 4) kInt32 eq_refl eq_refl).
Defined.

(** X9. An operand whose descriptor differs from the descriptor of the
    binary node is replaced by a Cast node allocated by the construction:
    the cast has the descriptor of the node and its [src_value()] is the
    handle that was passed, whose own node and descriptor are unchanged. *)
Theorem mismatched_operand_is_cast
    (op : IRNodeType) (lhs_v rhs_v : Expr) (heap : Heap)
    (res : Expr) (heap' : Heap) (d : Dtype) :
  make_of op lhs_v rhs_v heap = Ret (res, heap') ->
  dtype heap' res = Ret d ->
  (forall dl, dtype heap lhs_v = Ret dl -> dl <> d ->
     exists c, lhs heap' res = Ret c /\
       deref heap c = None /\ is_Cast heap' c = true /\
       dtype heap' c = Ret d /\ src_value heap' c = Ret lhs_v /\
       dtype heap' lhs_v = Ret dl) /\
  (forall dr, dtype heap rhs_v = Ret dr -> dr <> d ->
     exists c, rhs heap' res = Ret c /\
       deref heap c = None /\ is_Cast heap' c = true /\
       dtype heap' c = Ret d /\ src_value heap' c = Ret rhs_v /\
       dtype heap' rhs_v = Ret dr).
Proof.
  rewrite make_of_eq. intros Hmake Hres.
  destruct (BinaryOpNode_make_inv _ _ _ _ _ _ Hmake)
    as (dl & dr & d' & l & r & ext1 & ext2 & Hdl & Hdr & _ & _ & _
        & _ & Hl2 & _ & Hr2 & _ & _ & -> & ->).
  unfold dtype in Hres. rewrite read_new in Hres. simpl in Hres.
  injection Hres as ->.
  unfold lhs, rhs. rewrite !read_new. simpl.
  split.
  - intros dl0 Hdl0 Hne. assert (dl0 = dl) as -> by congruence.
    destruct (Hl2 Hne) as [-> ->]. eexists. split; [reflexivity|].
    split; [apply deref_fresh|].
    assert (Hc : deref (((heap ++ [mkNode d (NCast lhs_v)]) ++ ext2) ++
                         [mkNode d (NBinaryOp (mkExpr (length heap)) r op)])
                   (mkExpr (length heap)) = Some (mkNode d (NCast lhs_v)))
      by (do 2 apply deref_app; apply deref_new).
    unfold is_Cast, dtype at 1, src_value, read. rewrite Hc. simpl.
    repeat split. by do 3 apply read_app.
  - intros dr0 Hdr0 Hne. assert (dr0 = dr) as -> by congruence.
    destruct (Hr2 Hne) as [-> ->]. eexists. split; [reflexivity|].
    split.
    { unfold deref. simpl. apply lookup_ge_None_2. rewrite length_app. lia. }
    assert (Hc : deref (((heap ++ ext1) ++ [mkNode d (NCast rhs_v)]) ++
                         [mkNode d (NBinaryOp l (mkExpr (length (heap ++ ext1)))
                                      op)])
                   (mkExpr (length (heap ++ ext1)))
                 = Some (mkNode d (NCast rhs_v)))
      by (apply deref_app; apply deref_new).
    unfold is_Cast, dtype at 1, src_value, read. rewrite Hc. simpl.
    repeat split. by do 3 apply read_app.
Qed.

(** [Sub::make] of a float and an integer: the right operand is cast. *)
Lemma mismatched_operand_is_cast_witness :
  let heap := [mkNode kFloat32 (NFloatImm float_2); mkNode kInt32 (NIntImm 5)] in
  exists res heap' c,
    Sub_make (mkExpr 0) (mkExpr 1) heap = Ret (res, heap') /\
    rhs heap' res = Ret c /\
    dtype heap' c = Ret kFloat32 /\
    src_value heap' c = Ret (mkExpr 1) /\
    dtype heap' (mkExpr 1) = Ret kInt32.
Proof.
  intros heap.
  destruct (proj2 (mismatched_operand_is_cast kSub (mkExpr 0) (mkExpr 1) heap
              (mkExpr 3)
              (heap ++ [mkNode kFloat32 (NCast (mkExpr 1));
                        mkNode kFloat32 (NBinaryOp (mkExpr 0) (mkExpr 2) kSub)])
              kFloat32 eq_refl eq_refl) kInt32 eq_refl)
    as (c & Hr & _ & _ & Hd & Hs & Ho); [discriminate|].
  exists (mkExpr 3). eexists. exists c.
  split; [reflexivity|]. repeat split; assumption.
Defined.



(** ** Immediates, chained casts and the empty block *)

(** X11. An immediate holds the value it was made from, with type Int32
    or Float32, and immediates are not shared: two calls with the same
    value return two different handles. *)
Theorem immediates_hold_value (heap : Heap) :
  (forall v : Z, exists i1 heap1 i2 heap2,
     IntImm_make v heap = Ret (i1, heap1) /\
     IntImm_make v heap1 = Ret (i2, heap2) /\
     i1 <> i2 /\
     IntImm_value heap2 i1 = Ret v /\ IntImm_value heap2 i2 = Ret v /\
     dtype heap2 i1 = Ret kInt32 /\ dtype heap2 i2 = Ret kInt32) /\
  (forall v : spec_float, exists f1 heap1 f2 heap2,
     FloatImm_make v heap = Ret (f1, heap1) /\
     FloatImm_make v heap1 = Ret (f2, heap2) /\
     f1 <> f2 /\
     FloatImm_value heap2 f1 = Ret v /\ FloatImm_value heap2 f2 = Ret v /\
     dtype heap2 f1 = Ret kFloat32 /\ dtype heap2 f2 = Ret kFloat32).
Proof.
  split; intros v.
  - set (n := mkNode kInt32 (NIntImm v)).
    assert (H1 : deref ((heap ++ [n]) ++ [n]) (mkExpr (length heap)) = Some n)
      by apply deref_app, deref_new.
    eexists _, _, _, _.
    split; [reflexivity|]. split; [reflexivity|].
    split; [intros [= H]; rewrite length_app in H; simpl in H; lia|].
    unfold IntImm_value, dtype. rewrite !read_new.
    unfold read. fold n. by rewrite H1.
  - set (n := mkNode kFloat32 (NFloatImm v)).
    assert (H1 : deref ((heap ++ [n]) ++ [n]) (mkExpr (length heap)) = Some n)
      by apply deref_app, deref_new.
    eexists _, _, _, _.
    split; [reflexivity|]. split; [reflexivity|].
    split; [intros [= H]; rewrite length_app in H; simpl in H; lia|].
    unfold FloatImm_value, dtype. rewrite !read_new.
    unfold read. fold n. by rewrite H1.
Qed.

(** X12. Casts chain without collapsing: [cast<T2>(cast<T1>(e))] is a
    Cast of the kind of [T2] with the lanes of [e], over the inner cast,
    which is over [e]; the three handles are different and [e] keeps its
    descriptor. *)
Theorem cast_of_cast
    (T1 T2 : CType) (e : Expr) (heap : Heap) (de : Dtype) :
  dtype heap e = Ret de ->
  exists c1 heap1 c2 heap2,
    cast T1 e heap = Ret (c1, heap1) /\
    cast T2 c1 heap1 = Ret (c2, heap2) /\
    dtype heap2 c2 = Ret (mkDtype (scalar_type (ToDtype T2)) (lanes de)) /\
    src_value heap2 c2 = Ret c1 /\
    src_value heap2 c1 = Ret e /\
    dtype heap2 e = Ret de /\
    c1 <> e /\ c2 <> e /\ c2 <> c1.
Proof.
  intros Hd.
  set (n1 := mkNode (Dtype_lanes (ToDtype T1) (lanes de)) (NCast e)).
  set (n2 := mkNode (Dtype_lanes (ToDtype T2) (lanes de))
               (NCast (mkExpr (length heap)))).
  assert (H1 : cast T1 e heap = Ret (mkExpr (length heap), heap ++ [n1])).
  { unfold cast, bind, get_dtype. by rewrite Hd. }
  assert (Hd1 : dtype (heap ++ [n1]) (mkExpr (length heap))
                = Ret (Dtype_lanes (ToDtype T1) (lanes de))).
  { unfold dtype. by rewrite read_new. }
  assert (H2 : cast T2 (mkExpr (length heap)) (heap ++ [n1])
               = Ret (mkExpr (length (heap ++ [n1])), (heap ++ [n1]) ++ [n2])).
  { unfold cast, bind, get_dtype. by rewrite Hd1. }
  eexists _, _, _, _. split; [exact H1|]. split; [exact H2|].
  assert (Hc1 : deref ((heap ++ [n1]) ++ [n2]) (mkExpr (length heap))
                = Some n1) by apply deref_app, deref_new.
  unfold dtype at 1. unfold src_value. rewrite !read_new.
  unfold read at 1. rewrite Hc1. simpl.
  pose proof (dtype_live _ _ _ Hd) as Hlive.
  repeat split.
  - by do 2 apply read_app.
  - by apply live_fresh_ne.
  - apply live_fresh_ne. destruct Hlive as [m Hm]. exists m.
    by apply deref_app.
  - intros [= H]. rewrite length_app in H. simpl in H. lia.
Qed.

(** [cast<int>(cast<float>(v))] of a four-lane integer variable. *)
Lemma cast_of_cast_witness :
  exists c1 heap1 c2 heap2,
    cast c_float (mkExpr 0) [mkNode (mkDtype KInt32 4) (NVariable "v")]
      = Ret (c1, heap1) /\
    cast c_int c1 heap1 = Ret (c2, heap2) /\
    dtype heap2 c2 = Ret (mkDtype KInt32 4) /\
    src_value heap2 c2 = Ret c1 /\
    src_value heap2 c1 = Ret (mkExpr 0).
Proof.
  destruct (cast_of_cast c_float c_int (mkExpr 0)
              [mkNode (mkDtype KInt32 4) (NVariable "v")] (mkDtype KInt32 4)
              eq_refl)
    as (c1 & heap1 & c2 & heap2 & H1 & H2 & Hd & Hs2 & Hs1 & _).
  exists c1, heap1, c2, heap2. repeat split; assumption.
Defined.

(** X13. The empty block: [Block::make] of no expression succeeds,
    [nexprs()] is 0, and [expr(index)] is undefined at every [int]
    index. *)
Theorem Block_make_empty (heap : Heap) :
  exists b heap',
    Block_make [] heap = Ret (b, heap') /\
    nexprs heap' b = Ret 0 /\
    dtype heap' b = Ret kNull /\
    forall index, Int.is_int index -> expr heap' b index = Undefined.
Proof.
  eexists _, _. split; [reflexivity|].
  unfold nexprs, dtype. rewrite !read_new. simpl.
  repeat split. intros index Hi.
  unfold expr. rewrite read_new. simpl.
  apply vector_index_past_end; [vm_compute; discriminate | done | simpl; lia].
Qed.

(** The empty block read at 0. *)
Lemma Block_make_empty_witness :
  exists b heap',
    Block_make [] [] = Ret (b, heap') /\ expr heap' b 0 = Undefined.
Proof.
  destruct (Block_make_empty []) as (b & heap' & Hmake & _ & _ & Hexpr).
  exists b, heap'. split; [exact Hmake|].
  apply Hexpr. vm_compute. split; discriminate.
Defined.

(** ** No cycles, anonymous variables *)

(** X14. A store built by the factories has no cycle: no node reaches
    itself by following the handles that nodes hold. *)
Theorem built_acyclic (heap : Heap) :
  built heap -> forall e, ~ reaches heap e e.
Proof.
  intros Hb.
  assert (Hlt : forall e e', reaches heap e e' ->
                  (node_ptr e' < node_ptr e)%nat).
  { induction 1 as [e n ch He Hch | e n ch e' He Hch _ IH].
    - by apply (built_child_lt heap Hb e n ch).
    - pose proof (built_child_lt heap Hb e n ch He Hch). lia. }
  intros e Hcycle. apply Hlt in Hcycle. lia.
Qed.

(** In the sample store the Add node reaches the integer immediate through
    the cast, and nothing reaches itself. *)
Lemma built_acyclic_witness :
  let heap := [mkNode kInt32 (NIntImm 3); mkNode kFloat32 (NFloatImm float_2);
               mkNode kFloat32 (NCast (mkExpr 0));
               mkNode kFloat32 (NBinaryOp (mkExpr 2) (mkExpr 1) kAdd)] in
  reaches heap (mkExpr 3) (mkExpr 0) /\ ~ reaches heap (mkExpr 3) (mkExpr 3).
Proof.
  intros heap. split.
  - apply (reaches_step heap (mkExpr 3)
             (mkNode kFloat32 (NBinaryOp (mkExpr 2) (mkExpr 1) kAdd))
             (mkExpr 2) (mkExpr 0) eq_refl).
    + simpl. apply elem_of_cons. by left.
    + apply (reaches_child heap (mkExpr 2)
               (mkNode kFloat32 (NCast (mkExpr 0))) (mkExpr 0) eq_refl).
      simpl. apply elem_of_cons. by left.
  - exact (built_acyclic heap built_sample (mkExpr 3)).
Defined.

(** X15. [Variable::make(dtype)] makes a variable with the empty name
    hint and the given descriptor, whatever the descriptor is; two such
    calls return two different variables. *)
Theorem Variable_make_anon_distinct (d : Dtype) (heap : Heap) :
  exists v1 heap1 v2 heap2,
    Variable_make_anon d heap = Ret (v1, heap1) /\
    Variable_make_anon d heap1 = Ret (v2, heap2) /\
    v1 <> v2 /\
    is_Variable heap2 v1 = true /\ is_Variable heap2 v2 = true /\
    name_hint heap2 v1 = Ret EmptyString /\
    name_hint heap2 v2 = Ret EmptyString /\
    dtype heap2 v1 = Ret d /\ dtype heap2 v2 = Ret d.
Proof.
  set (n := mkNode d (NVariable EmptyString)).
  assert (H1 : deref ((heap ++ [n]) ++ [n]) (mkExpr (length heap)) = Some n)
    by apply deref_app, deref_new.
  eexists _, _, _, _.
  split; [reflexivity|]. split; [reflexivity|].
  split; [intros [= H]; rewrite length_app in H; simpl in H; lia|].
  unfold is_Variable, name_hint, dtype. rewrite !read_new, deref_new.
  unfold read. fold n. by rewrite H1.
Qed.
